(** * ecs-fargate: the deployment stack and its naming helper

    A shallow embedding of [lib/utils.ts] (constants and [stageTitleCase])
    and of the [DeploymentStack] constructor, with the properties the
    specification states about them.

    Layout: module [JS] holds the slice of ECMAScript strings the code
    relies on, [Utils] the helper file, [Cdk] the construct store the
    constructor writes to, [Deployment] the constructor itself and
    [Observe] the functions that read a finished stack.  The theorems
    follow the definitions. *)

From Stdlib Require Import Ascii String DecimalString DecimalZ.
From Stdlib Require Import List NArith ZArith Bool Lia.
From Equations Require Import Equations.
Import ListNotations.

Set Implicit Arguments.

(* ===================================================================== *)
(** ** ECMAScript strings *)
(* ===================================================================== *)

Module JS.

(** A string value is a finite sequence of UTF-16 code units. *)
Definition codeunit := N.
Definition jsstring := list codeunit.

(** String literals of the source (all of them ASCII). *)
Definition lit (s : string) : jsstring :=
  map N_of_ascii (list_ascii_of_string s).

(** The character class [\w] of a pattern without the [u] and [i]
    flags: [A-Za-z0-9_]. *)
Definition isWordChar (c : codeunit) : bool :=
  ((48 <=? c) && (c <=? 57)       (* 0-9 *)
   || (65 <=? c) && (c <=? 90)    (* A-Z *)
   || (c =? 95)                   (* _ *)
   || (97 <=? c) && (c <=? 122))%N (* a-z *).

(** The character class [\s]: WhiteSpace and LineTerminator. *)
Definition isWhiteSpace (c : codeunit) : bool :=
  ((9 <=? c) && (c <=? 13)            (* TAB LF VT FF CR *)
   || (c =? 32)                       (* SP *)
   || (c =? 160)                      (* NBSP *)
   || (c =? 5760)                     (* U+1680 *)
   || (8192 <=? c) && (c <=? 8202)    (* U+2000 .. U+200A *)
   || (c =? 8232) || (c =? 8233)      (* LS PS *)
   || (c =? 8239)                     (* U+202F *)
   || (c =? 8287)                     (* U+205F *)
   || (c =? 12288)                    (* U+3000 *)
   || (c =? 65279))%N                 (* U+FEFF *).

(** The character class [\S]. *)
Definition isNonSpace (c : codeunit) : bool := negb (isWhiteSpace c).

Definition isAscii (c : codeunit) : bool := (c <? 128)%N.

(** Case conversion restricted to the ASCII range. *)
Definition asciiUpper (c : codeunit) : codeunit :=
  if ((97 <=? c) && (c <=? 122))%N then (c - 32)%N else c.

Definition asciiLower (c : codeunit) : codeunit :=
  if ((65 <=? c) && (c <=? 90))%N then (c + 32)%N else c.

(** [String.prototype.charAt] and [String.prototype.substring] with one
    argument. *)
Definition charAt (s : jsstring) (pos : nat) : jsstring :=
  firstn 1 (skipn pos s).

Definition substring (s : jsstring) (start : nat) : jsstring :=
  skipn start s.

(** [String.prototype.toUpperCase] and [toLowerCase] are built-ins of the
    runtime and follow the Unicode case tables.  The code depends on
    them through this interface: their value on ASCII text, which is
    fixed, and two facts about lower-casing arbitrary text. *)
Class Casing := {
  toUpperCase : jsstring -> jsstring;
  toLowerCase : jsstring -> jsstring;
  toUpperCase_word :
    forall c, isWordChar c = true -> toUpperCase [c] = [asciiUpper c];
  toLowerCase_ascii :
    forall s, forallb isAscii s = true -> toLowerCase s = map asciiLower s;
  toLowerCase_idem :
    forall s, toLowerCase (toLowerCase s) = toLowerCase s;
  toLowerCase_nonspace :
    forall s, forallb isNonSpace s = true ->
              forallb isNonSpace (toLowerCase s) = true
}.

(** The longest prefix of [s] in the class [p], and what follows it. *)
Fixpoint takeWhile (p : codeunit -> bool) (s : jsstring) : jsstring :=
  match s with
  | [] => []
  | c :: r => if p c then c :: takeWhile p r else []
  end.

Fixpoint dropWhile (p : codeunit -> bool) (s : jsstring) : jsstring :=
  match s with
  | [] => []
  | c :: r => if p c then dropWhile p r else s
  end.

Lemma dropWhile_length p s : length (dropWhile p s) <= length s.
Proof.
  induction s as [|c r IH]; simpl; [lia|].
  destruct (p c); simpl; lia.
Qed.

(** [str.replace(/\w\S*/g, replacer)] with a function as second argument.
    The search runs left to right.  At a code unit that is not in [\w] no
    match starts and the unit is copied.  At one that is, the match is
    that unit followed by the longest run of [\S]; the replacer's result
    is inserted as it is and the search resumes after the match. *)
Equations? replace (replacer : jsstring -> jsstring) (s : jsstring)
  : jsstring by wf (length s) lt :=
  replace replacer [] := [];
  replace replacer (c :: r) with isWordChar c := {
    | true := replacer (c :: takeWhile isNonSpace r)
                ++ replace replacer (dropWhile isNonSpace r);
    | false := c :: replace replacer r }.
Proof.
  all: try (pose proof (dropWhile_length isNonSpace r)); simpl; lia.
Qed.

(** [Number.prototype.toString] of an integral clock reading: the decimal
    digits, with a leading minus sign below zero.  ([Date.now()] is an
    integer number of milliseconds, far below the magnitude at which
    the exponent notation starts.) *)
Definition toString (n : Z) : jsstring :=
  lit (NilZero.string_of_int (Z.to_int n)).

End JS.

Import JS.

(** The runtime restricted to ASCII case conversion; code units outside
  the ASCII range are left alone. *)
Module AsciiRuntime.

Definition upper (s : jsstring) : jsstring := map asciiUpper s.
Definition lower (s : jsstring) : jsstring := map asciiLower s.

Lemma asciiLower_idem c : asciiLower (asciiLower c) = asciiLower c.
Proof.
  unfold asciiLower.
  destruct ((65 <=? c) && (c <=? 90))%N eqn:E; [|rewrite E; reflexivity].
  apply andb_true_iff in E. destruct E as [E1 E2].
  apply N.leb_le in E1, E2.
  replace ((65 <=? c + 32) && (c + 32 <=? 90))%N with false; [reflexivity|].
  symmetry. apply andb_false_iff. right. apply N.leb_gt. lia.
Qed.

Lemma asciiLower_nonspace c :
  isNonSpace c = true -> isNonSpace (asciiLower c) = true.
Proof.
  unfold asciiLower.
  destruct ((65 <=? c) && (c <=? 90))%N eqn:E; [|tauto].
  intros _.
  apply andb_true_iff in E. destruct E as [E1 E2].
  apply N.leb_le in E1, E2.
  unfold isNonSpace, isWhiteSpace.
  apply negb_true_iff.
  repeat (apply orb_false_iff; split);
    try (apply N.eqb_neq; lia);
    apply andb_false_iff; (left; apply N.leb_gt; lia) || (right; apply N.leb_gt; lia).
Qed.

Lemma upper_word c : isWordChar c = true -> upper [c] = [asciiUpper c].
Proof. reflexivity. Qed.

Lemma lower_ascii s : forallb isAscii s = true -> lower s = map asciiLower s.
Proof. reflexivity. Qed.

Lemma lower_idem s : lower (lower s) = lower s.
Proof.
  unfold lower. rewrite map_map. apply map_ext. intros; apply asciiLower_idem.
Qed.

Lemma lower_nonspace s :
  forallb isNonSpace s = true -> forallb isNonSpace (lower s) = true.
Proof.
  unfold lower. rewrite !forallb_forall. intros H x Hx.
  apply in_map_iff in Hx. destruct Hx as [y [<- Hy]].
  apply asciiLower_nonspace. auto.
Qed.

#[export] Instance casing : Casing :=
  {| toUpperCase := upper;
     toLowerCase := lower;
     toUpperCase_word := upper_word;
     toLowerCase_ascii := lower_ascii;
     toLowerCase_idem := lower_idem;
     toLowerCase_nonspace := lower_nonspace |}.

End AsciiRuntime.

(* ===================================================================== *)
(** ** lib/utils.ts *)
(* ===================================================================== *)

Module Utils.

Definition ECR_REPOSITORY_NAME : jsstring := lit "server-repository".

Definition ECS_TASKS_URL : jsstring := lit "ecs-tasks.amazonaws.com".

Definition SERVER_SUBNET_NAME : jsstring := lit "server".

Definition RDS_SUBNET_NAME : jsstring := lit "rds".

Section TitleCase.
Context {runtime : Casing}.

(** The arrow function handed to [replace]:
    [text.charAt(0).toUpperCase() + text.substring(1).toLowerCase()]. *)
Definition capitalize (text : jsstring) : jsstring :=
  toUpperCase (charAt text 0) ++ toLowerCase (substring text 1).

Definition stageTitleCase (str : jsstring) : jsstring :=
  replace capitalize str.

End TitleCase.

End Utils.

Import Utils.

(* ===================================================================== *)
(** ** The construct library, as far as the stack uses it *)
(* ===================================================================== *)

Module Cdk.

(** Constructs are objects; the stack holds them in creation order and a
    reference to one is its position in that store.  A method that
    changes an object ([addToPolicy], [addPortMappings], [allowFrom])
    updates the store in place, so every holder of the reference sees it. *)
Definition Ref := nat.

(** Strings the library hands out.  Some are known only at deployment
    and are held symbolically, by the attribute they stand for. *)
Inductive Value :=
| Str (s : jsstring)
| SecretArn (secret : Ref)              (* [dbSecret.secretArn] *)
| LoadBalancerDnsName (service : Ref)   (* [service.loadBalancer.loadBalancerDnsName] *).

(** The library's string form of a value ([Token.asString]).  A literal
    is itself.  A deploy-time attribute is a marker string: a display
    hint and a number between [BEGIN_STRING_TOKEN_MARKER] and
    [END_TOKEN_MARKER].  The library draws the number from a counter of
    its own; here it is the reference of the owning construct. *)
Definition BEGIN_STRING_TOKEN_MARKER : jsstring := lit "${Token[".

Definition END_TOKEN_MARKER : jsstring := lit "]}".

Definition asString (v : Value) : jsstring :=
  match v with
  | Str s => s
  | SecretArn r =>
      BEGIN_STRING_TOKEN_MARKER ++ lit "Secret.Arn." ++ toString (Z.of_nat r)
        ++ END_TOKEN_MARKER
  | LoadBalancerDnsName r =>
      BEGIN_STRING_TOKEN_MARKER ++ lit "LoadBalancer.DNSName."
        ++ toString (Z.of_nat r) ++ END_TOKEN_MARKER
  end.

Inductive Effect := ALLOW | DENY.

Record PolicyStatement := {
  effect : Effect;
  actions : list jsstring;
  resources : list Value
}.

Inductive ServicePrincipal := servicePrincipal (service : jsstring).

Inductive Port := tcp (port : Z).

Inductive RetentionDays := ONE_WEEK | TWO_WEEKS | ONE_MONTH.

Inductive ApplicationProtocol := HTTP | HTTPS.

Inductive SubnetType := PUBLIC | PRIVATE_WITH_EGRESS | PRIVATE_ISOLATED.

Inductive ContainerImage := fromEcrRepository (repository : Ref) (tag : jsstring).

(** [ecs.Secret]: a reference to one JSON field of a stored secret. *)
Inductive EcsSecret := fromSecretsManager (secret : Ref) (field : jsstring).

Inductive LogDriver :=
  awsLogs (streamPrefix : jsstring) (logRetention : RetentionDays).

Record PortMapping := { containerPort : Z }.

(** One call of [connections.allowFrom], kept on the group it opens. *)
Record Rule := {
  peer : Ref;
  rulePort : Port;
  description : jsstring
}.

Record ClusterProps := { vpc : Ref }.

Record RoleProps := { assumedBy : ServicePrincipal }.

Record FargateTaskDefinitionProps := {
  memoryLimitMiB : Z;
  cpu : Z;
  executionRole : Ref;
  taskRole : Ref
}.

Record ContainerDefinitionOptions := {
  image : ContainerImage;
  environment : list (jsstring * jsstring);
  secrets : list (jsstring * EcsSecret);
  logging : LogDriver
}.

Record SecurityGroupProps := {
  securityGroupVpc : Ref;
  allowAllOutbound : bool
}.

Record ApplicationLoadBalancedFargateServiceProps := {
  cluster : Ref;
  taskDefinition : Ref;
  publicLoadBalancer : bool;
  assignPublicIp : bool;
  protocol : ApplicationProtocol;
  listenerPort : Z;
  securityGroups : list Ref;
  taskSubnets : SubnetType
}.

Record CfnOutputProps := { value : Value }.

Inductive Construct :=
| Vpc
| Secret_fromSecretNameV2 (id : jsstring) (secretName : jsstring)
| Cluster (id : jsstring) (props : ClusterProps)
| Role (id : jsstring) (props : RoleProps) (policy : list PolicyStatement)
| FargateTaskDefinition (id : jsstring) (props : FargateTaskDefinitionProps)
| Repository_fromRepositoryName (id : jsstring) (repositoryName : jsstring)
| ContainerDefinition (owner : Ref) (id : jsstring)
    (props : ContainerDefinitionOptions) (portMappings : list PortMapping)
| SecurityGroup (id : jsstring) (props : SecurityGroupProps) (rules : list Rule)
| SecurityGroup_fromSecurityGroupId (id : jsstring) (securityGroupId : jsstring)
    (rules : list Rule)
| ApplicationLoadBalancedFargateService (id : jsstring)
    (props : ApplicationLoadBalancedFargateServiceProps)
| CfnOutput (id : jsstring) (props : CfnOutputProps).

(** The stack under construction: [super(scope, id, props)] starts it
    with no children. *)
Record Stack := {
  stackId : jsstring;
  children : list Construct
}.

Definition Stack_new (id : jsstring) : Stack :=
  {| stackId := id; children := [] |}.

(** Construction code threads the stack. *)
Definition Synth (A : Type) : Type := Stack -> A * Stack.

Definition ret {A} (a : A) : Synth A := fun st => (a, st).

Definition bind {A B} (m : Synth A) (k : A -> Synth B) : Synth B :=
  fun st => let (a, st') := m st in k a st'.

Definition exec {A} (m : Synth A) (st : Stack) : Stack := snd (m st).

(** [new C(this, ...)]: the construct joins the stack; the result is the
    reference to it. *)
Definition new (c : Construct) : Synth Ref :=
  fun st =>
    (length (children st),
     {| stackId := stackId st; children := children st ++ [c] |}).

Fixpoint update (l : list Construct) (r : Ref) (f : Construct -> Construct)
  : list Construct :=
  match l, r with
  | [], _ => []
  | c :: l', O => f c :: l'
  | c :: l', S r' => c :: update l' r' f
  end.

Definition modify (r : Ref) (f : Construct -> Construct) : Synth unit :=
  fun st =>
    (tt, {| stackId := stackId st; children := update (children st) r f |}).

Definition get (r : Ref) : Synth (option Construct) :=
  fun st => (nth_error (children st) r, st).

(** [role.addToPolicy(statement)]. *)
Definition addToPolicy (role : Ref) (statement : PolicyStatement) : Synth unit :=
  modify role (fun c =>
    match c with
    | Role id props policy => Role id props (policy ++ [statement])
    | _ => c
    end).

(** [taskDefinition.addToTaskRolePolicy(statement)]: the statement goes to
    the role the task definition was given as [taskRole]. *)
Definition addToTaskRolePolicy (td : Ref) (statement : PolicyStatement)
  : Synth unit :=
  bind (get td) (fun c =>
    match c with
    | Some (FargateTaskDefinition _ props) =>
        addToPolicy (taskRole props) statement
    | _ => ret tt
    end).

(** [taskDefinition.addContainer(id, props)]: a container definition
    owned by the task definition. *)
Definition addContainer (td : Ref) (id : jsstring)
    (props : ContainerDefinitionOptions) : Synth Ref :=
  new (ContainerDefinition td id props []).

(** [container.addPortMappings(mapping)]. *)
Definition addPortMappings (container : Ref) (mapping : PortMapping)
  : Synth unit :=
  modify container (fun c =>
    match c with
    | ContainerDefinition owner id props mappings =>
        ContainerDefinition owner id props (mappings ++ [mapping])
    | _ => c
    end).

(** [group.connections.allowFrom(other, port, description)]. *)
Definition allowFrom (group other : Ref) (port : Port) (text : jsstring)
  : Synth unit :=
  let rule := {| peer := other; rulePort := port; description := text |} in
  modify group (fun c =>
    match c with
    | SecurityGroup id props rules => SecurityGroup id props (rules ++ [rule])
    | SecurityGroup_fromSecurityGroupId id sgid rules =>
        SecurityGroup_fromSecurityGroupId id sgid (rules ++ [rule])
    | _ => c
    end).

End Cdk.

Import Cdk.

Declare Scope synth_scope.
Delimit Scope synth_scope with synth.
Notation "x <- m ;; k" := (bind m (fun x => k))
  (at level 61, m at next level, right associativity) : synth_scope.
Notation "m ;;; k" := (bind m (fun _ => k))
  (at level 61, right associativity) : synth_scope.

(* ===================================================================== *)
(** ** The deployment stack *)
(* ===================================================================== *)

Module Deployment.

Record DeploymentStackProps := {
  stageName : jsstring;
  imageTag : jsstring
}.

(** What the constructor reads from outside the two source files: the
    names of the two stored parameters (constants imported from
    './utils' that the helper file at hand does not define) and the
    parameter store behind [StringParameter.valueFromLookup]. *)
Record Lookups := {
  RDS_SECRET_NAME_SSM_NAME : jsstring;
  RDS_SECURITY_GROUP_ID_SSM_NAME : jsstring;
  valueFromLookup : jsstring -> jsstring
}.

(** Modelled from the spec: [getVpc] is imported from './utils' but is not
    among the sources.  The specification describes it as the reference
    to an existing virtual network, found by lookup; it adds that one
    reference to the stack. *)
Definition getVpc : Synth Ref := new Vpc.

Section Constructor.
Context {runtime : Casing}.
Variable env : Lookups.
(** The reading of [Date.now()] during the pass, in milliseconds. *)
Variable now : Z.

Local Open Scope synth_scope.

Definition constructor (props : DeploymentStackProps) : Synth unit :=
  let stageName := stageName props in
  let stageTitle := stageTitleCase stageName in
  vpc <- getVpc ;;

  dbSecret <- new (Secret_fromSecretNameV2 (lit "dbSecret")
                     (valueFromLookup env (RDS_SECRET_NAME_SSM_NAME env))) ;;

  let secretsManagerPermissions :=
    {| effect := ALLOW;
       actions := [lit "secretsmanager:GetSecretValue"];
       resources := [SecretArn dbSecret] |} in

  ecsCluster <- new (Cluster (lit "ECS" ++ stageTitle ++ lit "-Cluster")
                       {| vpc := vpc |}) ;;

  executionRole <- new (Role (stageTitle ++ lit "ExecutionRole")
                          {| assumedBy := servicePrincipal ECS_TASKS_URL |} []) ;;
  addToPolicy executionRole
    {| effect := ALLOW;
       resources := [Str (lit "*")];
       actions := [lit "ecr:GetAuthorizationToken";
                   lit "ecr:BatchCheckLayerAvailability";
                   lit "ecr:GetDownloadUrlForLayer";
                   lit "ecr:BatchGetImage";
                   lit "logs:CreateLogStream";
                   lit "logs:PutLogEvents"] |} ;;;

  taskRole <- new (Role (stageTitle ++ lit "TaskRole")
                     {| assumedBy := servicePrincipal ECS_TASKS_URL |} []) ;;

  taskDefinition <- new (FargateTaskDefinition (lit "TaskDef-" ++ stageName)
                           {| memoryLimitMiB := 512;
                              cpu := 256;
                              executionRole := executionRole;
                              taskRole := taskRole |}) ;;

  addToTaskRolePolicy taskDefinition secretsManagerPermissions ;;;

  repository <- new (Repository_fromRepositoryName (lit "ECR") ECR_REPOSITORY_NAME) ;;
  container <- addContainer taskDefinition (stageTitle ++ lit "Container")
                 {| image := fromEcrRepository repository (imageTag props);
                    environment := [(lit "FORCE_DEPLOYMENT_ENV_VAR", toString now)];
                    secrets := [(lit "DBHOST", fromSecretsManager dbSecret (lit "host"));
                                (lit "DBNAME", fromSecretsManager dbSecret (lit "dbname"));
                                (lit "DBUSER", fromSecretsManager dbSecret (lit "username"));
                                (lit "DBPASS", fromSecretsManager dbSecret (lit "password"));
                                (lit "DBPORT", fromSecretsManager dbSecret (lit "port"))];
                    logging := awsLogs (stageTitle ++ lit "Logs") TWO_WEEKS |} ;;

  addPortMappings container {| containerPort := 3000 |} ;;;

  fargateSecurityGroup <- new (SecurityGroup (stageTitle ++ lit "FargateSecurityGroup")
                                 {| securityGroupVpc := vpc;
                                    allowAllOutbound := true |} []) ;;

  fargateService <- new (ApplicationLoadBalancedFargateService
                           (stageTitle ++ lit "Service")
                           {| cluster := ecsCluster;
                              taskDefinition := taskDefinition;
                              publicLoadBalancer := true;
                              assignPublicIp := true;
                              protocol := HTTP;
                              listenerPort := 80;
                              securityGroups := [fargateSecurityGroup];
                              taskSubnets := PUBLIC |}) ;;

  rdsSecurityGroup <- new (SecurityGroup_fromSecurityGroupId
                             (lit "RDS" ++ stageTitle ++ lit "SecurityGroup")
                             (valueFromLookup env (RDS_SECURITY_GROUP_ID_SSM_NAME env))
                             []) ;;

  allowFrom rdsSecurityGroup fargateSecurityGroup (tcp 5432)
    (lit "Allow traffic from fargate/ECS") ;;;
  allowFrom fargateSecurityGroup rdsSecurityGroup (tcp 5432)
    (lit "Allow traffic from RDS") ;;;

  _ <- new (CfnOutput (lit "LoadBalancer" ++ stageTitle ++ lit "DNS")
              {| value := LoadBalancerDnsName fargateService |}) ;;
  ret tt.

(** [new DeploymentStack(scope, id, props)]: the stack the constructor
    leaves behind. *)
Definition DeploymentStack (id : jsstring) (props : DeploymentStackProps) : Stack :=
  exec (constructor props) (Stack_new id).

End Constructor.

(** A parameter store for running the constructor on examples. *)
Definition sampleLookups : Lookups :=
  {| RDS_SECRET_NAME_SSM_NAME := lit "/rds/secret-name";
     RDS_SECURITY_GROUP_ID_SSM_NAME := lit "/rds/security-group-id";
     valueFromLookup := fun name => lit "dummy-value-for-" ++ name |}.

End Deployment.

Import Deployment.


(* ===================================================================== *)
(** ** Reading a stack *)
(* ===================================================================== *)

Module Observe.

Definition jsstring_eqb (a b : jsstring) : bool :=
  if list_eq_dec N.eq_dec a b then true else false.





Definition count (p : Construct -> bool) (st : Stack) : nat :=
  length (filter p (children st)).

Definition lookup (st : Stack) (r : Ref) : option Construct :=
  nth_error (children st) r.

(** The children of a stack paired with their references. *)
Definition indexed (st : Stack) : list (Ref * Construct) :=
  combine (seq 0 (length (children st))) (children st).






Definition taskDefinitions (st : Stack) : list FargateTaskDefinitionProps :=
  flat_map (fun c => match c with
                     | FargateTaskDefinition _ props => [props]
                     | _ => []
                     end) (children st).

Definition services (st : Stack)
  : list (Ref * ApplicationLoadBalancedFargateServiceProps) :=
  flat_map (fun rc => match snd rc with
                      | ApplicationLoadBalancedFargateService _ props =>
                          [(fst rc, props)]
                      | _ => []
                      end) (indexed st).

Definition outputs (st : Stack) : list Value :=
  flat_map (fun c => match c with
                     | CfnOutput _ props => [value props]
                     | _ => []
                     end) (children st).

(** The containers of a task definition. *)
Definition containersOf (st : Stack) (td : Ref)
  : list (ContainerDefinitionOptions * list PortMapping) :=
  flat_map (fun c => match c with
                     | ContainerDefinition owner _ props mappings =>
                         if Nat.eqb owner td then [(props, mappings)] else []
                     | _ => []
                     end) (children st).

Definition containers (st : Stack)
  : list (ContainerDefinitionOptions * list PortMapping) :=
  flat_map (fun rc => match snd rc with
                      | FargateTaskDefinition _ _ => containersOf st (fst rc)
                      | _ => []
                      end) (indexed st).

Fixpoint assoc (key : jsstring) (l : list (jsstring * jsstring))
  : option jsstring :=
  match l with
  | [] => None
  | (k, v) :: l' => if jsstring_eqb k key then Some v else assoc key l'
  end.

(** The value of an environment variable in the stack's containers. *)
Definition environmentValue (st : Stack) (name : jsstring) : list jsstring :=
  flat_map (fun c => match assoc name (environment (fst c)) with
                     | Some v => [v]
                     | None => []
                     end) (containers st).

(** The identifier each construct was created under. *)
Definition idOf (c : Construct) : list jsstring :=
  match c with
  | Vpc => []
  | Secret_fromSecretNameV2 id _ => [id]
  | Cluster id _ => [id]
  | Role id _ _ => [id]
  | FargateTaskDefinition id _ => [id]
  | Repository_fromRepositoryName id _ => [id]
  | ContainerDefinition _ id _ _ => [id]
  | SecurityGroup id _ _ => [id]
  | SecurityGroup_fromSecurityGroupId id _ _ => [id]
  | ApplicationLoadBalancedFargateService id _ => [id]
  | CfnOutput id _ => [id]
  end.

Definition identifiers (st : Stack) : list jsstring :=
  flat_map idOf (children st).

(** A stack with its names blanked: every construct identifier and the
    prefix of the log streams become the empty string; nothing else is
    touched. *)
Definition eraseLogName (l : LogDriver) : LogDriver :=
  match l with awsLogs _ retention => awsLogs [] retention end.

Definition eraseName (c : Construct) : Construct :=
  match c with
  | Vpc => Vpc
  | Secret_fromSecretNameV2 _ name => Secret_fromSecretNameV2 [] name
  | Cluster _ props => Cluster [] props
  | Role _ props policy => Role [] props policy
  | FargateTaskDefinition _ props => FargateTaskDefinition [] props
  | Repository_fromRepositoryName _ name => Repository_fromRepositoryName [] name
  | ContainerDefinition owner _ props mappings =>
      ContainerDefinition owner []
        {| image := image props;
           environment := environment props;
           secrets := secrets props;
           logging := eraseLogName (logging props) |}
        mappings
  | SecurityGroup _ props rules => SecurityGroup [] props rules
  | SecurityGroup_fromSecurityGroupId _ sgid rules => SecurityGroup_fromSecurityGroupId [] sgid rules
  | ApplicationLoadBalancedFargateService _ props =>
      ApplicationLoadBalancedFargateService [] props
  | CfnOutput _ props => CfnOutput [] props
  end.

Definition eraseNames (st : Stack) : Stack :=
  {| stackId := stackId st; children := map eraseName (children st) |}.



(** Where a run of [p] ends: at the end of the string or before a code
    unit outside [p]. *)
Definition stops (p : codeunit -> bool) (s : jsstring) : bool :=
  match s with
  | [] => true
  | c :: _ => negb (p c)
  end.

(** A token as the pattern matches it: a word character, then no white
    space. *)
Definition isToken (w : jsstring) : bool :=
  match w with
  | [] => false
  | c :: r => isWordChar c && forallb isNonSpace r
  end.

End Observe.

Import Observe.

(* ===================================================================== *)
(** ** Where each input of the constructor ends up *)
(* ===================================================================== *)

Module Footprint.

(** A decimal digit, [0-9]. *)
Definition isDigit (c : codeunit) : bool := ((48 <=? c) && (c <=? 57))%N.

(** The number of hyphens in a string. *)
Definition hyphens (s : jsstring) : nat := count_occ N.eq_dec s 45%N.

Definition isRole (c : Construct) : bool :=
  match c with Role _ _ _ => true | _ => false end.

(** One function applied to the options of every container of a stack. *)
Definition onContainers
    (f : ContainerDefinitionOptions -> ContainerDefinitionOptions)
    (st : Stack) : Stack :=
  {| stackId := stackId st;
     children :=
       map (fun c => match c with
                     | ContainerDefinition owner id props mappings =>
                         ContainerDefinition owner id (f props) mappings
                     | _ => c
                     end) (children st) |}.

(** The container options with the tag of the image blanked. *)
Definition eraseImageTag (o : ContainerDefinitionOptions)
  : ContainerDefinitionOptions :=
  {| image := match image o with
              | fromEcrRepository repository _ => fromEcrRepository repository []
              end;
     environment := environment o;
     secrets := secrets o;
     logging := logging o |}.

(** The container options with every environment value blanked; the
    variable names stay. *)
Definition eraseEnvironmentValues (o : ContainerDefinitionOptions)
  : ContainerDefinitionOptions :=
  {| image := image o;
     environment := map (fun kv => (fst kv, [])) (environment o);
     secrets := secrets o;
     logging := logging o |}.

(** A stack with the identifier of its task definitions blanked. *)
Definition eraseTaskDefinitionId (st : Stack) : Stack :=
  {| stackId := stackId st;
     children :=
       map (fun c => match c with
                     | FargateTaskDefinition _ props => FargateTaskDefinition [] props
                     | _ => c
                     end) (children st) |}.

End Footprint.

Import Footprint.

(* ===================================================================== *)
(** ** Properties of the pattern replacement *)
(* ===================================================================== *)

Section ReplaceFacts.
Variable replacer : jsstring -> jsstring.

Lemma replace_nil : replace replacer [] = [].
Proof. now simp replace. Qed.

Lemma replace_word c r :
  isWordChar c = true ->
  replace replacer (c :: r)
  = replacer (c :: takeWhile isNonSpace r)
      ++ replace replacer (dropWhile isNonSpace r).
Proof. intros H. simp replace. rewrite H. reflexivity. Qed.

Lemma replace_other c r :
  isWordChar c = false ->
  replace replacer (c :: r) = c :: replace replacer r.
Proof. intros H. simp replace. rewrite H. reflexivity. Qed.

End ReplaceFacts.

(** Arithmetic on the character classes: the tests become inequalities
    on the code unit. *)
Ltac by_code_unit :=
  unfold isWordChar, isWhiteSpace, isNonSpace, asciiUpper, asciiLower, isAscii in *;
  repeat match goal with
         | |- context [if ?b then _ else _] => destruct b eqn:?
         end;
  rewrite ?negb_true_iff, ?negb_false_iff in *;
  rewrite ?orb_true_iff, ?orb_false_iff, ?andb_true_iff, ?andb_false_iff,
    ?N.leb_le, ?N.leb_gt, ?N.eqb_eq, ?N.eqb_neq, ?N.ltb_lt, ?N.ltb_ge in *;
  lia.

Lemma whitespace_not_word c : isWhiteSpace c = true -> isWordChar c = false.
Proof. intros H. destruct (isWordChar c) eqn:E; [|reflexivity]. exfalso. by_code_unit. Qed.

Lemma asciiUpper_word c : isWordChar c = true -> isWordChar (asciiUpper c) = true.
Proof. intros H. by_code_unit. Qed.

Lemma asciiUpper_idem c : asciiUpper (asciiUpper c) = asciiUpper c.
Proof.
  unfold asciiUpper at 2 3.
  destruct ((97 <=? c) && (c <=? 122))%N eqn:E; [|unfold asciiUpper; now rewrite E].
  by_code_unit.
Qed.

Lemma takeWhile_all p s : forallb p (takeWhile p s) = true.
Proof.
  induction s as [|c r IH]; simpl; [reflexivity|].
  destruct (p c) eqn:E; simpl; [now rewrite E|reflexivity].
Qed.

Lemma dropWhile_stops p s : stops p (dropWhile p s) = true.
Proof.
  induction s as [|c r IH]; simpl; [reflexivity|].
  destruct (p c) eqn:E; simpl; [assumption|now rewrite E].
Qed.

Lemma takeWhile_dropWhile p s : takeWhile p s ++ dropWhile p s = s.
Proof.
  induction s as [|c r IH]; simpl; [reflexivity|].
  destruct (p c); simpl; [now rewrite IH|reflexivity].
Qed.

Lemma takeWhile_app p a b :
  forallb p a = true -> stops p b = true -> takeWhile p (a ++ b) = a.
Proof.
  induction a as [|c a IH]; simpl; intros Ha Hb.
  - destruct b as [|d b]; simpl in *; [reflexivity|].
    apply negb_true_iff in Hb. now rewrite Hb.
  - apply andb_true_iff in Ha. destruct Ha as [Hc Ha].
    rewrite Hc, IH; auto.
Qed.

Lemma dropWhile_app p a b :
  forallb p a = true -> stops p b = true -> dropWhile p (a ++ b) = b.
Proof.
  induction a as [|c a IH]; simpl; intros Ha Hb.
  - destruct b as [|d b]; simpl in *; [reflexivity|].
    apply negb_true_iff in Hb. now rewrite Hb.
  - apply andb_true_iff in Ha. destruct Ha as [Hc Ha].
    rewrite Hc, IH; auto.
Qed.

Section TitleCaseFacts.
Context {runtime : Casing}.

Lemma capitalize_word c r :
  isWordChar c = true ->
  capitalize (c :: r) = asciiUpper c :: toLowerCase r.
Proof.
  intros H. unfold capitalize, charAt, substring. simpl.
  now rewrite toUpperCase_word.
Qed.

Lemma stageTitleCase_nil : stageTitleCase [] = [].
Proof. apply replace_nil. Qed.

Lemma stageTitleCase_word c r :
  isWordChar c = true ->
  stageTitleCase (c :: r)
  = asciiUpper c :: toLowerCase (takeWhile isNonSpace r)
      ++ stageTitleCase (dropWhile isNonSpace r).
Proof.
  intros H. unfold stageTitleCase. rewrite replace_word by assumption.
  now rewrite capitalize_word.
Qed.

Lemma stageTitleCase_other c r :
  isWordChar c = false -> stageTitleCase (c :: r) = c :: stageTitleCase r.
Proof. intros H. now apply replace_other. Qed.

(** The result ends a run of non-space where the input does. *)
Lemma stageTitleCase_stops s :
  stops isNonSpace s = true -> stops isNonSpace (stageTitleCase s) = true.
Proof.
  destruct s as [|c r]; intros H.
  - now rewrite stageTitleCase_nil.
  - simpl in H. unfold isNonSpace in H. rewrite negb_involutive in H.
    rewrite stageTitleCase_other by now apply whitespace_not_word.
    simpl. unfold isNonSpace. now rewrite negb_involutive.
Qed.

Lemma stageTitleCase_idem_bounded n :
  forall s, length s <= n -> stageTitleCase (stageTitleCase s) = stageTitleCase s.
Proof.
  induction n as [|n IH]; intros s Hn.
  - destruct s; [|simpl in Hn; lia]. now rewrite !stageTitleCase_nil.
  - destruct s as [|c r]; [now rewrite !stageTitleCase_nil|].
    simpl in Hn.
    destruct (isWordChar c) eqn:Hc.
    + rewrite stageTitleCase_word by assumption.
      set (tok := takeWhile isNonSpace r).
      set (rest := dropWhile isNonSpace r).
      assert (Htok : forallb isNonSpace (toLowerCase tok) = true)
        by (apply toLowerCase_nonspace, takeWhile_all).
      assert (Hrest : stops isNonSpace (stageTitleCase rest) = true)
        by (apply stageTitleCase_stops, dropWhile_stops).
      rewrite stageTitleCase_word by now apply asciiUpper_word.
      rewrite takeWhile_app, dropWhile_app by assumption.
      rewrite asciiUpper_idem, toLowerCase_idem.
      rewrite IH; [reflexivity|].
      pose proof (dropWhile_length isNonSpace r). fold rest in H. lia.
    + rewrite stageTitleCase_other by assumption.
      rewrite stageTitleCase_other by assumption.
      rewrite IH; [reflexivity|lia].
Qed.

End TitleCaseFacts.

Section TitleCaseAscii.
Context {runtime : Casing}.

Lemma forallb_takeWhile (q p : codeunit -> bool) s :
  forallb q s = true -> forallb q (takeWhile p s) = true.
Proof.
  induction s as [|c r IH]; simpl; [reflexivity|]. intros H.
  apply andb_true_iff in H. destruct H as [Hc Hr].
  destruct (p c); simpl; [rewrite Hc; auto|reflexivity].
Qed.

Lemma forallb_dropWhile (q p : codeunit -> bool) s :
  forallb q s = true -> forallb q (dropWhile p s) = true.
Proof.
  induction s as [|c r IH]; simpl; [reflexivity|]. intros H.
  destruct (p c); simpl; [|assumption].
  apply andb_true_iff in H. tauto.
Qed.

(** On ASCII text every runtime agrees with the ASCII one. *)
Lemma stageTitleCase_ascii_bounded n :
  forall s, length s <= n -> forallb isAscii s = true ->
  stageTitleCase s = stageTitleCase (runtime := AsciiRuntime.casing) s.
Proof.
  induction n as [|n IH]; intros s Hn Hs.
  - destruct s; [|simpl in Hn; lia]. now rewrite !stageTitleCase_nil.
  - destruct s as [|c r]; [now rewrite !stageTitleCase_nil|].
    simpl in Hn, Hs. apply andb_true_iff in Hs. destruct Hs as [_ Hr].
    destruct (isWordChar c) eqn:Hc.
    + rewrite !stageTitleCase_word by assumption.
      rewrite !toLowerCase_ascii by now apply forallb_takeWhile.
      rewrite IH; [reflexivity| |now apply forallb_dropWhile].
      pose proof (dropWhile_length isNonSpace r). lia.
    + rewrite !stageTitleCase_other by assumption.
      rewrite IH; [reflexivity|lia|assumption].
Qed.

Lemma stageTitleCase_ascii s :
  forallb isAscii s = true ->
  stageTitleCase s = stageTitleCase (runtime := AsciiRuntime.casing) s.
Proof. apply stageTitleCase_ascii_bounded with (n := length s). lia. Qed.







End TitleCaseAscii.

(** Decimal rendering tells clock readings apart. *)
Lemma lit_inj a b : lit a = lit b -> a = b.
Proof.
  unfold lit. intros H.
  rewrite <- (string_of_list_ascii_of_string a), <- (string_of_list_ascii_of_string b).
  f_equal.
  revert H. generalize (list_ascii_of_string a) (list_ascii_of_string b).
  intros l. induction l as [|x l IH]; intros [|y l']; simpl;
    try discriminate; auto.
  intros H. injection H as Hxy Hl. f_equal; [|auto].
  rewrite <- (ascii_N_embedding x), <- (ascii_N_embedding y). now rewrite Hxy.
Qed.

Lemma to_int_not_nil z :
  Z.to_int z <> Decimal.Pos Decimal.Nil /\ Z.to_int z <> Decimal.Neg Decimal.Nil.
Proof.
  destruct z as [|p|p]; simpl; split; try discriminate;
    intros H; injection H as H; now apply DecimalPos.Unsigned.to_uint_nonnil in H.
Qed.

Lemma toString_inj a b : toString a = toString b -> a = b.
Proof.
  unfold toString. intros H. apply lit_inj in H.
  apply DecimalZ.to_int_inj.
  destruct (to_int_not_nil a) as [Ha1 Ha2], (to_int_not_nil b) as [Hb1 Hb2].
  pose proof (NilZero.isi _ Ha1 Ha2) as Ia.
  pose proof (NilZero.isi _ Hb1 Hb2) as Ib.
  rewrite H in Ia. congruence.
Qed.

(* ===================================================================== *)
(** ** The helper [stageTitleCase] *)
(* ===================================================================== *)

(** C7.  Title-casing is idempotent: for every string [s], and so for
    every non-empty one, [stageTitleCase (stageTitleCase s)] is
    [stageTitleCase s].  This holds with any runtime case tables that
    meet the [Casing] interface. *)
Theorem stageTitleCase_idempotent (runtime : Casing) (s : jsstring) :
  stageTitleCase (stageTitleCase s) = stageTitleCase s.
Proof. apply stageTitleCase_idem_bounded with (n := length s). lia. Qed.




(* ===================================================================== *)
(** ** The stack the constructor builds *)
(* ===================================================================== *)

Section StackFacts.
Context {runtime : Casing}.
Variable env : Lookups.
Variable now : Z.
Variable id : jsstring.
Variable props : DeploymentStackProps.

(** The identifiers in creation order, built from the stage name and its
    title. *)
Lemma identifiers_eq :
  identifiers (DeploymentStack env now id props)
  = let stageTitle := stageTitleCase (stageName props) in
    [ lit "dbSecret";
      lit "ECS" ++ stageTitle ++ lit "-Cluster";
      stageTitle ++ lit "ExecutionRole";
      stageTitle ++ lit "TaskRole";
      lit "TaskDef-" ++ stageName props;
      lit "ECR";
      stageTitle ++ lit "Container";
      stageTitle ++ lit "FargateSecurityGroup";
      stageTitle ++ lit "Service";
      lit "RDS" ++ stageTitle ++ lit "SecurityGroup";
      lit "LoadBalancer" ++ stageTitle ++ lit "DNS" ].
Proof. reflexivity. Qed.

Lemma children_length :
  length (children (DeploymentStack env now id props)) = 12.
Proof. reflexivity. Qed.

End StackFacts.



(** The end-to-end scenario run on its inputs: stage "staging", tag
    "abc123". *)
Example staging_scenario :
  let g := DeploymentStack (runtime := AsciiRuntime.casing) sampleLookups
             1730000000000 (lit "App")
             {| stageName := lit "staging"; imageTag := lit "abc123" |} in
  map (fun c => map containerPort (snd c)) (containers g) = [[3000%Z]]
  /\ map (fun s => (listenerPort (snd s), protocol (snd s))) (services g)
     = [(80%Z, HTTP)]
  /\ map asString (outputs g) = [lit "${Token[LoadBalancer.DNSName.9]}"]
  /\ identifiers g
     = map lit [ "dbSecret"; "ECSStaging-Cluster"; "StagingExecutionRole";
                 "StagingTaskRole"; "TaskDef-staging"; "ECR";
                 "StagingContainer"; "StagingFargateSecurityGroup";
                 "StagingService"; "RDSStagingSecurityGroup";
                 "LoadBalancerStagingDNS" ]%string.
Proof. vm_compute. repeat split. Qed.

(** C3.  The container's secrets are exactly five bindings, to the fields
    host, dbname, username, password and port of the database secret, each
    a reference into that secret; the only plain environment entry is the
    redeployment stamp. *)
Theorem secret_bindings_five_fields
    (runtime : Casing) (env : Lookups) (now : Z) (id : jsstring)
    (props : DeploymentStackProps) :
  let g := DeploymentStack env now id props in
  exists dbSecret : Ref,
    lookup g dbSecret
    = Some (Secret_fromSecretNameV2 (lit "dbSecret")
              (valueFromLookup env (RDS_SECRET_NAME_SSM_NAME env)))
    /\ map (fun c => secrets (fst c)) (containers g)
       = [[ (lit "DBHOST", fromSecretsManager dbSecret (lit "host"));
            (lit "DBNAME", fromSecretsManager dbSecret (lit "dbname"));
            (lit "DBUSER", fromSecretsManager dbSecret (lit "username"));
            (lit "DBPASS", fromSecretsManager dbSecret (lit "password"));
            (lit "DBPORT", fromSecretsManager dbSecret (lit "port")) ]]
    /\ map (fun c => map fst (environment (fst c))) (containers g)
       = [[ lit "FORCE_DEPLOYMENT_ENV_VAR" ]].
Proof. exists 1. repeat split. Qed.



(** C5.  The stage title only names things.  Two runs that differ in the
    stage name alone, with titles that differ, build stacks that are
    equal once construct identifiers and the log-stream prefix are
    blanked (ports, protocol, memory and CPU, policies, secret bindings
    and rules are the same), and whose identifiers differ. *)
Theorem stage_title_only_names
    (runtime : Casing) (env : Lookups) (now : Z) (id tag : jsstring)
    (stage1 stage2 : jsstring) :
  stageTitleCase stage1 <> stageTitleCase stage2 ->
  let g1 := DeploymentStack env now id {| stageName := stage1; imageTag := tag |} in
  let g2 := DeploymentStack env now id {| stageName := stage2; imageTag := tag |} in
  eraseNames g1 = eraseNames g2 /\ identifiers g1 <> identifiers g2.
Proof.
  intros Hne g1 g2. split; [reflexivity|].
  subst g1 g2. rewrite !identifiers_eq. cbv zeta. intros Heq.
  apply (f_equal (fun l => nth 2 l [])) in Heq. cbn [nth stageName] in Heq.
  apply app_inv_tail in Heq. contradiction.
Qed.

Lemma stage_title_only_names_witness :
  let g1 := DeploymentStack (runtime := AsciiRuntime.casing) sampleLookups 0
              (lit "App") {| stageName := lit "staging"; imageTag := lit "abc123" |} in
  let g2 := DeploymentStack (runtime := AsciiRuntime.casing) sampleLookups 0
              (lit "App") {| stageName := lit "production"; imageTag := lit "abc123" |} in
  eraseNames g1 = eraseNames g2 /\ identifiers g1 <> identifiers g2.
Proof.
  apply (@stage_title_only_names AsciiRuntime.casing sampleLookups 0%Z
           (lit "App") (lit "abc123") (lit "staging") (lit "production")).
  vm_compute. discriminate.
Defined.

(** C6.  Two passes with the same stage name and image tag but different
    clock readings carry different values of [FORCE_DEPLOYMENT_ENV_VAR]. *)
Theorem force_deployment_value_differs
    (runtime : Casing) (env : Lookups) (id : jsstring)
    (props : DeploymentStackProps) (time1 time2 : Z) :
  time1 <> time2 ->
  exists v1 v2,
    environmentValue (DeploymentStack env time1 id props)
      (lit "FORCE_DEPLOYMENT_ENV_VAR") = [v1]
    /\ environmentValue (DeploymentStack env time2 id props)
         (lit "FORCE_DEPLOYMENT_ENV_VAR") = [v2]
    /\ v1 <> v2.
Proof.
  intros Hne. exists (toString time1), (toString time2).
  split; [reflexivity|]. split; [reflexivity|].
  intros H. apply toString_inj in H. contradiction.
Qed.

Lemma force_deployment_value_differs_witness :
  exists v1 v2,
    environmentValue
      (DeploymentStack (runtime := AsciiRuntime.casing) sampleLookups
         1730000000000 (lit "App")
         {| stageName := lit "staging"; imageTag := lit "abc123" |})
      (lit "FORCE_DEPLOYMENT_ENV_VAR") = [v1]
    /\ environmentValue
         (DeploymentStack (runtime := AsciiRuntime.casing) sampleLookups
            1730000000001 (lit "App")
            {| stageName := lit "staging"; imageTag := lit "abc123" |})
         (lit "FORCE_DEPLOYMENT_ENV_VAR") = [v2]
    /\ v1 <> v2.
Proof.
  apply (@force_deployment_value_differs AsciiRuntime.casing sampleLookups
           (lit "App") {| stageName := lit "staging"; imageTag := lit "abc123" |}
           1730000000000%Z 1730000000001%Z).
  lia.
Defined.

(** C9.  No stage name is rejected.  [stageTitleCase] has a value on every
    string and maps the empty string to itself; for every stage name the
    constructor runs to the end and builds its identifiers from the name
    and its title as they are, so the empty name yields identifiers such
    as ["ECS-Cluster"] and ["TaskDef-"]. *)
Theorem empty_stage_not_rejected
    (runtime : Casing) (env : Lookups) (now : Z) (id tag : jsstring) :
  stageTitleCase [] = []
  /\ (forall stage,
        let g := DeploymentStack env now id
                   {| stageName := stage; imageTag := tag |} in
        length (children g) = 12
        /\ identifiers g
           = [ lit "dbSecret";
               lit "ECS" ++ stageTitleCase stage ++ lit "-Cluster";
               stageTitleCase stage ++ lit "ExecutionRole";
               stageTitleCase stage ++ lit "TaskRole";
               lit "TaskDef-" ++ stage;
               lit "ECR";
               stageTitleCase stage ++ lit "Container";
               stageTitleCase stage ++ lit "FargateSecurityGroup";
               stageTitleCase stage ++ lit "Service";
               lit "RDS" ++ stageTitleCase stage ++ lit "SecurityGroup";
               lit "LoadBalancer" ++ stageTitleCase stage ++ lit "DNS" ])
  /\ identifiers (DeploymentStack env now id
                    {| stageName := []; imageTag := tag |})
     = [ lit "dbSecret"; lit "ECS-Cluster"; lit "ExecutionRole";
         lit "TaskRole"; lit "TaskDef-"; lit "ECR"; lit "Container";
         lit "FargateSecurityGroup"; lit "Service"; lit "RDSSecurityGroup";
         lit "LoadBalancerDNS" ].
Proof.
  split; [apply stageTitleCase_nil|].
  split; [intros stage g; split; [apply children_length|apply identifiers_eq]|].
  rewrite identifiers_eq. cbv zeta. cbn [stageName].
  rewrite stageTitleCase_nil. reflexivity.
Qed.

(* ===================================================================== *)
(** ** Further properties of the pattern replacement *)
(* ===================================================================== *)

Lemma replace_self_bounded n :
  forall s, length s <= n -> replace (fun text => text) s = s.
Proof.
  induction n as [|n IH]; intros s Hn.
  - destruct s; [apply replace_nil|simpl in Hn; lia].
  - destruct s as [|c r]; [apply replace_nil|]. simpl in Hn.
    destruct (isWordChar c) eqn:Hc.
    + rewrite replace_word by assumption.
      rewrite IH.
      * simpl. now rewrite takeWhile_dropWhile.
      * pose proof (dropWhile_length isNonSpace r). lia.
    + rewrite replace_other by assumption. rewrite IH; [reflexivity|lia].
Qed.

(** X1.  The matches of the pattern and the text between them make up
    the whole string in order: replacing every match by itself gives the
    string back. *)
Theorem replace_by_itself (s : jsstring) :
  replace (fun text => text) s = s.
Proof. apply replace_self_bounded with (n := length s). lia. Qed.

Lemma replace_tokens_bounded (f g : jsstring -> jsstring) n :
  (forall w, isToken w = true -> f w = g w) ->
  forall s, length s <= n -> replace f s = replace g s.
Proof.
  intros Hfg. induction n as [|n IH]; intros s Hn.
  - destruct s; [now rewrite !replace_nil|simpl in Hn; lia].
  - destruct s as [|c r]; [now rewrite !replace_nil|]. simpl in Hn.
    destruct (isWordChar c) eqn:Hc.
    + rewrite !replace_word by assumption.
      rewrite Hfg by (simpl; now rewrite Hc, takeWhile_all).
      rewrite IH; [reflexivity|].
      pose proof (dropWhile_length isNonSpace r). lia.
    + rewrite !replace_other by assumption. rewrite IH; [reflexivity|lia].
Qed.

(** X2.  The replacer is applied to tokens only: to non-empty texts that
    start with a word character and hold no white space.  Two replacers
    that agree on tokens give the same result on every string. *)
Theorem replace_calls_on_tokens (f g : jsstring -> jsstring) (s : jsstring) :
  (forall w, isToken w = true -> f w = g w) ->
  replace f s = replace g s.
Proof.
  intros Hfg. apply replace_tokens_bounded with (n := length s); auto.
Qed.

Lemma replace_calls_on_tokens_witness :
  replace (fun w => match w with [] => lit "never" | _ => w end)
          (lit " ab  c-d ")
  = replace (fun w => w) (lit " ab  c-d ").
Proof.
  apply (@replace_calls_on_tokens
           (fun w => match w with [] => lit "never" | _ => w end)
           (fun w => w) (lit " ab  c-d ")).
  intros [|c r]; [discriminate|reflexivity].
Defined.

(* ===================================================================== *)
(** ** Further properties of [stageTitleCase] *)
(* ===================================================================== *)

Section TitleCaseMore.
Context {runtime : Casing}.

Lemma filter_whitespace_nonspace l :
  forallb isNonSpace l = true -> filter isWhiteSpace l = [].
Proof.
  induction l as [|c l IH]; simpl; [reflexivity|]. intros H.
  apply andb_true_iff in H. destruct H as [Hc Hl].
  unfold isNonSpace in Hc. apply negb_true_iff in Hc. rewrite Hc. auto.
Qed.

Lemma word_not_whitespace c : isWordChar c = true -> isWhiteSpace c = false.
Proof.
  intros H. destruct (isWhiteSpace c) eqn:E; [|reflexivity].
  apply whitespace_not_word in E. congruence.
Qed.

Lemma stageTitleCase_whitespace_bounded n :
  forall s, length s <= n ->
  filter isWhiteSpace (stageTitleCase s) = filter isWhiteSpace s.
Proof.
  induction n as [|n IH]; intros s Hn.
  - destruct s; [now rewrite stageTitleCase_nil|simpl in Hn; lia].
  - destruct s as [|c r]; [now rewrite stageTitleCase_nil|]. simpl in Hn.
    destruct (isWordChar c) eqn:Hc.
    + rewrite stageTitleCase_word by assumption.
      rewrite <- (takeWhile_dropWhile isNonSpace r) at 3.
      simpl.
      rewrite (word_not_whitespace _ (asciiUpper_word _ Hc)).
      rewrite (word_not_whitespace _ Hc).
      rewrite !filter_app.
      rewrite (filter_whitespace_nonspace (toLowerCase _))
        by apply toLowerCase_nonspace, takeWhile_all.
      rewrite (filter_whitespace_nonspace (takeWhile _ _))
        by apply takeWhile_all.
      rewrite IH; [reflexivity|].
      pose proof (dropWhile_length isNonSpace r). lia.
    + rewrite stageTitleCase_other by assumption. simpl.
      rewrite IH by lia. reflexivity.
Qed.

Lemma stageTitleCase_nonempty c r : stageTitleCase (c :: r) <> [].
Proof.
  destruct (isWordChar c) eqn:Hc.
  - rewrite stageTitleCase_word by assumption. discriminate.
  - rewrite stageTitleCase_other by assumption. discriminate.
Qed.

End TitleCaseMore.

(** X3.  Title-casing keeps the white space of the string: the white-space
    characters of the result are those of the input, in the same order,
    whatever the runtime's case tables do to the rest. *)
Theorem stageTitleCase_keeps_whitespace (runtime : Casing) (s : jsstring) :
  filter isWhiteSpace (stageTitleCase s) = filter isWhiteSpace s.
Proof. apply stageTitleCase_whitespace_bounded with (n := length s). lia. Qed.

(** X4.  The title is empty only for the empty string: a non-empty stage
    name never yields an empty title. *)
Theorem stageTitleCase_empty_iff (runtime : Casing) (s : jsstring) :
  stageTitleCase s = [] <-> s = [].
Proof.
  split.
  - destruct s as [|c r]; [reflexivity|].
    intros H. now apply stageTitleCase_nonempty in H.
  - intros ->. apply stageTitleCase_nil.
Qed.

(** Case conversion and the character classes. *)
Lemma asciiLower_upper c : asciiLower (asciiUpper c) = asciiLower c.
Proof.
  unfold asciiUpper.
  destruct ((97 <=? c) && (c <=? 122))%N eqn:E; [|reflexivity].
  by_code_unit.
Qed.

Lemma asciiUpper_lower c : asciiUpper (asciiLower c) = asciiUpper c.
Proof.
  unfold asciiLower.
  destruct ((65 <=? c) && (c <=? 90))%N eqn:E; [|reflexivity].
  by_code_unit.
Qed.

Lemma isWordChar_lower c : isWordChar (asciiLower c) = isWordChar c.
Proof.
  unfold asciiLower.
  destruct ((65 <=? c) && (c <=? 90))%N eqn:E; [|reflexivity].
  destruct (isWordChar (c + 32)%N) eqn:E1, (isWordChar c) eqn:E2;
    try reflexivity; exfalso; by_code_unit.
Qed.

Lemma isWhiteSpace_lower c : isWhiteSpace (asciiLower c) = isWhiteSpace c.
Proof.
  unfold asciiLower.
  destruct ((65 <=? c) && (c <=? 90))%N eqn:E; [|reflexivity].
  destruct (isWhiteSpace (c + 32)%N) eqn:E1, (isWhiteSpace c) eqn:E2;
    try reflexivity; exfalso; by_code_unit.
Qed.

Lemma isNonSpace_lower c : isNonSpace (asciiLower c) = isNonSpace c.
Proof. unfold isNonSpace. now rewrite isWhiteSpace_lower. Qed.

Lemma isAscii_lower c : isAscii (asciiLower c) = isAscii c.
Proof.
  unfold asciiLower.
  destruct ((65 <=? c) && (c <=? 90))%N eqn:E; [|reflexivity].
  destruct (isAscii (c + 32)%N) eqn:E1, (isAscii c) eqn:E2;
    try reflexivity; exfalso; by_code_unit.
Qed.

Lemma asciiLower_other c : isWordChar c = false -> asciiLower c = c.
Proof. intros H. by_code_unit. Qed.

Lemma takeWhile_map (p : codeunit -> bool) (f : codeunit -> codeunit) l :
  (forall x, p (f x) = p x) ->
  takeWhile p (map f l) = map f (takeWhile p l).
Proof.
  intros Hp. induction l as [|c l IH]; simpl; [reflexivity|].
  rewrite Hp. destruct (p c); simpl; [now rewrite IH|reflexivity].
Qed.

Lemma dropWhile_map (p : codeunit -> bool) (f : codeunit -> codeunit) l :
  (forall x, p (f x) = p x) ->
  dropWhile p (map f l) = map f (dropWhile p l).
Proof.
  intros Hp. induction l as [|c l IH]; simpl; [reflexivity|].
  rewrite Hp. destruct (p c); simpl; [now rewrite IH|reflexivity].
Qed.

Lemma forallb_isAscii_lower l :
  forallb isAscii (map asciiLower l) = forallb isAscii l.
Proof.
  induction l as [|c l IH]; simpl; [reflexivity|].
  now rewrite isAscii_lower, IH.
Qed.

Section AsciiTitle.

#[local] Existing Instance AsciiRuntime.casing.

Local Notation "'title'" := (stageTitleCase (runtime := AsciiRuntime.casing)).

Lemma title_word c r :
  isWordChar c = true ->
  title (c :: r)
  = asciiUpper c :: map asciiLower (takeWhile isNonSpace r)
      ++ title (dropWhile isNonSpace r).
Proof. intros H. now rewrite stageTitleCase_word. Qed.

(** With ASCII case conversion the title differs from the string in
    letter case only. *)
Lemma title_fold_bounded n :
  forall s, length s <= n -> map asciiLower (title s) = map asciiLower s.
Proof.
  induction n as [|n IH]; intros s Hn.
  - destruct s; [now rewrite stageTitleCase_nil|simpl in Hn; lia].
  - destruct s as [|c r]; [now rewrite stageTitleCase_nil|]. simpl in Hn.
    destruct (isWordChar c) eqn:Hc.
    + rewrite title_word by assumption.
      rewrite <- (takeWhile_dropWhile isNonSpace r) at 3.
      simpl. rewrite !map_app, map_map, asciiLower_upper.
      rewrite IH by (pose proof (dropWhile_length isNonSpace r); lia).
      do 2 f_equal. apply map_ext. intros; apply AsciiRuntime.asciiLower_idem.
    + rewrite stageTitleCase_other by assumption. simpl.
      now rewrite IH by lia.
Qed.

(** The title depends on the string up to letter case. *)
Lemma title_of_fold_bounded n :
  forall s, length s <= n -> title (map asciiLower s) = title s.
Proof.
  induction n as [|n IH]; intros s Hn.
  - destruct s; [reflexivity|simpl in Hn; lia].
  - destruct s as [|c r]; [reflexivity|]. simpl in Hn. simpl map.
    destruct (isWordChar c) eqn:Hc.
    + rewrite !title_word by (now rewrite ?isWordChar_lower).
      rewrite takeWhile_map, dropWhile_map by apply isNonSpace_lower.
      rewrite asciiUpper_lower, map_map.
      rewrite IH by (pose proof (dropWhile_length isNonSpace r); lia).
      do 2 f_equal. apply map_ext. intros; apply AsciiRuntime.asciiLower_idem.
    + rewrite asciiLower_other by assumption.
      rewrite !stageTitleCase_other by assumption.
      now rewrite IH by lia.
Qed.

End AsciiTitle.

(** X5.  On an ASCII string title-casing changes letter case and nothing
    else: the result has the length of the input, is ASCII, and equals the
    input once both are put in lower case. *)
Theorem stageTitleCase_changes_case_only (runtime : Casing) (s : jsstring) :
  forallb isAscii s = true ->
  map asciiLower (stageTitleCase s) = map asciiLower s
  /\ length (stageTitleCase s) = length s
  /\ forallb isAscii (stageTitleCase s) = true.
Proof.
  intros Hs. rewrite stageTitleCase_ascii by assumption.
  assert (Hfold : map asciiLower (stageTitleCase (runtime := AsciiRuntime.casing) s)
                  = map asciiLower s)
    by (apply title_fold_bounded with (n := length s); lia).
  split; [assumption|]. split.
  - rewrite <- (length_map asciiLower), Hfold. apply length_map.
  - rewrite <- forallb_isAscii_lower, Hfold, forallb_isAscii_lower. assumption.
Qed.

Lemma stageTitleCase_changes_case_only_witness :
  let s := lit "uat-2 bLUE" in
  map asciiLower (stageTitleCase (runtime := AsciiRuntime.casing) s)
  = map asciiLower s
  /\ length (stageTitleCase (runtime := AsciiRuntime.casing) s) = length s
  /\ forallb isAscii (stageTitleCase (runtime := AsciiRuntime.casing) s) = true.
Proof.
  apply (@stageTitleCase_changes_case_only AsciiRuntime.casing (lit "uat-2 bLUE")).
  reflexivity.
Defined.

(** X6.  Title-casing ignores the letter case of an ASCII string: two
    ASCII strings that are equal up to case have the same title (so
    "staging", "Staging" and "STAGING" all give "Staging"). *)
Theorem stageTitleCase_ignores_case (runtime : Casing) (s1 s2 : jsstring) :
  forallb isAscii s1 = true ->
  forallb isAscii s2 = true ->
  map asciiLower s1 = map asciiLower s2 ->
  stageTitleCase s1 = stageTitleCase s2.
Proof.
  intros H1 H2 Hfold.
  rewrite (stageTitleCase_ascii s1), (stageTitleCase_ascii s2) by assumption.
  rewrite <- (title_of_fold_bounded (n := length s1) s1) by lia.
  rewrite <- (title_of_fold_bounded (n := length s2) s2) by lia.
  now rewrite Hfold.
Qed.

Lemma stageTitleCase_ignores_case_witness :
  stageTitleCase (runtime := AsciiRuntime.casing) (lit "STAGING")
  = stageTitleCase (runtime := AsciiRuntime.casing) (lit "staging").
Proof.
  apply (@stageTitleCase_ignores_case AsciiRuntime.casing
           (lit "STAGING") (lit "staging")); reflexivity.
Defined.

(* ===================================================================== *)
(** ** The redeployment stamp *)
(* ===================================================================== *)

Lemma digits_of_uint d :
  forallb isDigit (lit (NilEmpty.string_of_uint d)) = true.
Proof. induction d; simpl; auto. Qed.

Lemma digits_nonempty d :
  d <> Decimal.Nil -> lit (NilEmpty.string_of_uint d) <> [].
Proof. destruct d; simpl; intros H; try discriminate. congruence. Qed.

Lemma toString_nonnegative n :
  (0 <= n)%Z -> toString n <> [] /\ forallb isDigit (toString n) = true.
Proof.
  intros Hn. unfold toString.
  destruct n as [|p|p]; [split; [discriminate|reflexivity]| |lia].
  simpl Z.to_int. simpl NilZero.string_of_int. unfold NilZero.string_of_uint.
  pose proof (DecimalPos.Unsigned.to_uint_nonnil p) as Hp.
  destruct (Pos.to_uint p) eqn:E; try congruence;
    (split; [apply digits_nonempty; discriminate|apply digits_of_uint]).
Qed.

(** X7.  When the clock reading is not negative, the value of
    [FORCE_DEPLOYMENT_ENV_VAR] is a non-empty string of decimal digits. *)
Theorem force_deployment_value_is_decimal
    (runtime : Casing) (env : Lookups) (now : Z) (id : jsstring)
    (props : DeploymentStackProps) :
  (0 <= now)%Z ->
  exists v,
    environmentValue (DeploymentStack env now id props)
      (lit "FORCE_DEPLOYMENT_ENV_VAR") = [v]
    /\ v <> []
    /\ forallb isDigit v = true.
Proof.
  intros Hnow. exists (toString now).
  split; [reflexivity|]. now apply toString_nonnegative.
Qed.

Lemma force_deployment_value_is_decimal_witness :
  exists v,
    environmentValue
      (DeploymentStack (runtime := AsciiRuntime.casing) sampleLookups
         1730000000000 (lit "App")
         {| stageName := lit "staging"; imageTag := lit "abc123" |})
      (lit "FORCE_DEPLOYMENT_ENV_VAR") = [v]
    /\ v <> []
    /\ forallb isDigit v = true.
Proof.
  apply (@force_deployment_value_is_decimal AsciiRuntime.casing sampleLookups
           1730000000000%Z (lit "App")
           {| stageName := lit "staging"; imageTag := lit "abc123" |}).
  lia.
Defined.

(* ===================================================================== *)
(** ** Further properties of the stack *)
(* ===================================================================== *)

Lemma hyphens_app a b : hyphens (a ++ b) = hyphens a + hyphens b.
Proof. apply count_occ_app. Qed.

Lemma asciiLower_hyphen c : asciiLower c = 45%N <-> c = 45%N.
Proof.
  unfold asciiLower.
  destruct ((65 <=? c) && (c <=? 90))%N eqn:E; [|tauto].
  apply andb_true_iff in E. destruct E as [E1 E2].
  apply N.leb_le in E1, E2. lia.
Qed.

Lemma hyphens_lower l : hyphens (map asciiLower l) = hyphens l.
Proof.
  unfold hyphens. induction l as [|c l IH]; simpl; [reflexivity|].
  destruct (N.eq_dec (asciiLower c) 45) as [E|E], (N.eq_dec c 45) as [E'|E'];
    rewrite IH; try reflexivity; exfalso.
  - apply E'. now apply asciiLower_hyphen.
  - apply E. now apply asciiLower_hyphen.
Qed.

(** Two identifiers of different length, given how the lengths of the
    title and of the stage name compare. *)
Ltac by_length H :=
  apply (f_equal (@length codeunit)) in H;
  rewrite ?length_app in H; simpl in H; lia.

(** Two identifiers with different numbers of hyphens. *)
Ltac by_hyphens H :=
  apply (f_equal hyphens) in H;
  rewrite ?hyphens_app in H;
  repeat match type of H with
         | context [hyphens (lit ?x)] =>
             let n := eval vm_compute in (hyphens (lit x)) in
             change (hyphens (lit x)) with n in H
         end;
  lia.

Lemma identifiers_distinct_from (stage title : jsstring) :
  length title = length stage ->
  hyphens title = hyphens stage ->
  NoDup [ lit "dbSecret";
          lit "ECS" ++ title ++ lit "-Cluster";
          title ++ lit "ExecutionRole";
          title ++ lit "TaskRole";
          lit "TaskDef-" ++ stage;
          lit "ECR";
          title ++ lit "Container";
          title ++ lit "FargateSecurityGroup";
          title ++ lit "Service";
          lit "RDS" ++ title ++ lit "SecurityGroup";
          lit "LoadBalancer" ++ title ++ lit "DNS" ].
Proof.
  intros Hlen Hhyp.
  repeat (apply NoDup_cons;
          [ intros Hin; cbn [In] in Hin;
            repeat (destruct Hin as [Hin|Hin]);
            try contradiction;
            first [ by_length Hin
                  | by_hyphens Hin
                  | discriminate Hin
                  | destruct title as [|a [|b title]];
                    first [ discriminate Hin | by_length Hin ] ]
          | ]).
  apply NoDup_nil.
Qed.

(** X8.  For an ASCII stage name the eleven identifiers the constructor
    uses are pairwise different, so no two constructs of a stack are
    created under the same identifier. *)
Theorem identifiers_distinct
    (runtime : Casing) (env : Lookups) (now : Z) (id : jsstring)
    (props : DeploymentStackProps) :
  forallb isAscii (stageName props) = true ->
  NoDup (identifiers (DeploymentStack env now id props)).
Proof.
  intros Hs. rewrite identifiers_eq. cbv zeta.
  assert (Hfold : map asciiLower (stageTitleCase (stageName props))
                  = map asciiLower (stageName props)).
  { rewrite stageTitleCase_ascii by assumption.
    apply title_fold_bounded with (n := length (stageName props)). lia. }
  apply identifiers_distinct_from.
  - rewrite <- (length_map asciiLower), Hfold. apply length_map.
  - rewrite <- hyphens_lower, Hfold. apply hyphens_lower.
Qed.

Lemma identifiers_distinct_witness :
  NoDup (identifiers
           (DeploymentStack (runtime := AsciiRuntime.casing) sampleLookups
              1730000000000 (lit "App")
              {| stageName := lit "TaskRole"; imageTag := lit "abc123" |})).
Proof.
  apply (@identifiers_distinct AsciiRuntime.casing sampleLookups
           1730000000000%Z (lit "App")
           {| stageName := lit "TaskRole"; imageTag := lit "abc123" |}).
  reflexivity.
Defined.

(** X9.  The image tag reaches the container image and nothing else: the
    container runs the image with the given tag, unchanged, from the
    repository [ECR_REPOSITORY_NAME], and two runs that differ in the tag
    alone build stacks that are equal once the tag is blanked. *)
Theorem image_tag_reaches_image_only
    (runtime : Casing) (env : Lookups) (now : Z) (id stage : jsstring)
    (tag1 tag2 : jsstring) :
  let g1 := DeploymentStack env now id {| stageName := stage; imageTag := tag1 |} in
  let g2 := DeploymentStack env now id {| stageName := stage; imageTag := tag2 |} in
  (exists repository,
     lookup g1 repository
     = Some (Repository_fromRepositoryName (lit "ECR") (lit "server-repository"))
     /\ map (fun c => image (fst c)) (containers g1)
        = [fromEcrRepository repository tag1])
  /\ onContainers eraseImageTag g1 = onContainers eraseImageTag g2.
Proof. split; [exists 6; split; reflexivity|reflexivity]. Qed.

(** X10.  The clock reading reaches the value of the container's
    environment variable and nothing else: two runs that differ in the
    reading alone build stacks that are equal once environment values are
    blanked. *)
Theorem clock_reaches_environment_only
    (runtime : Casing) (env : Lookups) (id : jsstring)
    (props : DeploymentStackProps) (time1 time2 : Z) :
  onContainers eraseEnvironmentValues (DeploymentStack env time1 id props)
  = onContainers eraseEnvironmentValues (DeploymentStack env time2 id props).
Proof. reflexivity. Qed.

(** X11.  The stage name itself is used in the identifier of the task
    definition only; everything else sees it through its title.  Two runs
    whose stage names have the same title build stacks that are equal
    once the task definition's identifier is blanked. *)
Theorem stage_name_reaches_task_definition_id_only
    (runtime : Casing) (env : Lookups) (now : Z) (id tag : jsstring)
    (stage1 stage2 : jsstring) :
  stageTitleCase stage1 = stageTitleCase stage2 ->
  eraseTaskDefinitionId
    (DeploymentStack env now id {| stageName := stage1; imageTag := tag |})
  = eraseTaskDefinitionId
      (DeploymentStack env now id {| stageName := stage2; imageTag := tag |}).
Proof.
  intros Htitle. unfold DeploymentStack, constructor.
  cbn [stageName imageTag]. cbv zeta. rewrite Htitle. reflexivity.
Qed.

Lemma stage_name_reaches_task_definition_id_only_witness :
  eraseTaskDefinitionId
    (DeploymentStack (runtime := AsciiRuntime.casing) sampleLookups 0
       (lit "App") {| stageName := lit "STAGING"; imageTag := lit "abc123" |})
  = eraseTaskDefinitionId
      (DeploymentStack (runtime := AsciiRuntime.casing) sampleLookups 0
         (lit "App") {| stageName := lit "staging"; imageTag := lit "abc123" |}).
Proof.
  apply (@stage_name_reaches_task_definition_id_only AsciiRuntime.casing
           sampleLookups 0%Z (lit "App") (lit "abc123")
           (lit "STAGING") (lit "staging")).
  reflexivity.
Defined.

(** X12.  The parameter store is read at the two parameter names and
    nowhere else: two stores that hold the same values under
    [RDS_SECRET_NAME_SSM_NAME] and [RDS_SECURITY_GROUP_ID_SSM_NAME] give
    the same stack. *)
Theorem lookups_read_at_two_names
    (runtime : Casing) (secretKey groupKey : jsstring)
    (store1 store2 : jsstring -> jsstring) (now : Z) (id : jsstring)
    (props : DeploymentStackProps) :
  store1 secretKey = store2 secretKey ->
  store1 groupKey = store2 groupKey ->
  DeploymentStack
    {| RDS_SECRET_NAME_SSM_NAME := secretKey;
       RDS_SECURITY_GROUP_ID_SSM_NAME := groupKey;
       valueFromLookup := store1 |} now id props
  = DeploymentStack
      {| RDS_SECRET_NAME_SSM_NAME := secretKey;
         RDS_SECURITY_GROUP_ID_SSM_NAME := groupKey;
         valueFromLookup := store2 |} now id props.
Proof.
  intros Hsecret Hgroup. unfold DeploymentStack, constructor.
  cbn [RDS_SECRET_NAME_SSM_NAME RDS_SECURITY_GROUP_ID_SSM_NAME valueFromLookup].
  rewrite Hsecret, Hgroup. reflexivity.
Qed.

Lemma lookups_read_at_two_names_witness :
  DeploymentStack (runtime := AsciiRuntime.casing)
    {| RDS_SECRET_NAME_SSM_NAME := lit "/rds/secret-name";
       RDS_SECURITY_GROUP_ID_SSM_NAME := lit "/rds/security-group-id";
       valueFromLookup := fun name => lit "dummy-value-for-" ++ name |}
    0 (lit "App") {| stageName := lit "staging"; imageTag := lit "abc123" |}
  = DeploymentStack (runtime := AsciiRuntime.casing)
      {| RDS_SECRET_NAME_SSM_NAME := lit "/rds/secret-name";
         RDS_SECURITY_GROUP_ID_SSM_NAME := lit "/rds/security-group-id";
         valueFromLookup :=
           fun name => if isToken name then lit "unused"
                       else lit "dummy-value-for-" ++ name |}
      0 (lit "App") {| stageName := lit "staging"; imageTag := lit "abc123" |}.
Proof.
  apply (@lookups_read_at_two_names AsciiRuntime.casing
           (lit "/rds/secret-name") (lit "/rds/security-group-id")
           (fun name => lit "dummy-value-for-" ++ name)
           (fun name => if isToken name then lit "unused"
                        else lit "dummy-value-for-" ++ name)
           0%Z (lit "App")
           {| stageName := lit "staging"; imageTag := lit "abc123" |});
    reflexivity.
Defined.

(** X13.  Where the service runs: in the one cluster, with the one task
    definition, with public addresses in the public subnets, behind one
    security group of its own that lets all outbound traffic through and
    lies in the same virtual network as the cluster. *)
Theorem service_placement
    (runtime : Casing) (env : Lookups) (now : Z) (id : jsstring)
    (props : DeploymentStackProps) :
  let g := DeploymentStack env now id props in
  exists service network clusterRef taskRef groupRef sprops cname tname tprops
         gname rules,
    services g = [(service, sprops)]
    /\ cluster sprops = clusterRef
    /\ taskDefinition sprops = taskRef
    /\ securityGroups sprops = [groupRef]
    /\ assignPublicIp sprops = true
    /\ taskSubnets sprops = PUBLIC
    /\ lookup g network = Some Vpc
    /\ lookup g clusterRef = Some (Cluster cname {| vpc := network |})
    /\ lookup g taskRef = Some (FargateTaskDefinition tname tprops)
    /\ lookup g groupRef
       = Some (SecurityGroup gname
                 {| securityGroupVpc := network; allowAllOutbound := true |}
                 rules).
Proof.
  set (stageTitle := stageTitleCase (stageName props)).
  exists 9, 0, 2, 5, 8.
  exists {| cluster := 2; taskDefinition := 5; publicLoadBalancer := true;
            assignPublicIp := true; protocol := HTTP; listenerPort := 80;
            securityGroups := [8]; taskSubnets := PUBLIC |}.
  exists (lit "ECS" ++ stageTitle ++ lit "-Cluster").
  exists (lit "TaskDef-" ++ stageName props).
  exists {| memoryLimitMiB := 512; cpu := 256; executionRole := 3; taskRole := 4 |}.
  exists (stageTitle ++ lit "FargateSecurityGroup").
  exists [ {| peer := 10; rulePort := tcp 5432;
              description := lit "Allow traffic from RDS" |} ].
  split; [reflexivity|].
  repeat (split; [reflexivity|]).
  reflexivity.
Qed.

(** X14.  The stack has two roles and they are different objects: the
    task definition's execution role and its task role.  Both can be
    assumed by the service principal [ECS_TASKS_URL] and by no other. *)
Theorem two_roles_for_ecs_tasks
    (runtime : Casing) (env : Lookups) (now : Z) (id : jsstring)
    (props : DeploymentStackProps) :
  let g := DeploymentStack env now id props in
  count isRole g = 2
  /\ exists td name1 name2 policy1 policy2,
       taskDefinitions g = [td]
       /\ executionRole td <> taskRole td
       /\ lookup g (executionRole td)
          = Some (Role name1
                    {| assumedBy := servicePrincipal (lit "ecs-tasks.amazonaws.com") |}
                    policy1)
       /\ lookup g (taskRole td)
          = Some (Role name2
                    {| assumedBy := servicePrincipal (lit "ecs-tasks.amazonaws.com") |}
                    policy2).
Proof.
  split; [reflexivity|].
  do 5 eexists. split; [reflexivity|].
  split; [cbn; discriminate|]. split; reflexivity.
Qed.
